(** * Socket.IO relay for Seefood orders: a model of [server.js]

    The server keeps one counter ([connectedClients]), lets every socket
    join the room ["order_updates"], answers [ping] with [pong], and turns
    ten HTTP POST endpoints into room broadcasts.  The development below
    embeds the handlers of [server.js] as functions in a small state and
    exception monad, and proves the properties of the relay's contract.

    Layout: JavaScript values, the handler monad, the transport's registry
    (sockets and rooms, as Socket.IO keeps them), the handlers, the event
    loop, and then the theorems. *)

From Stdlib Require Import ZArith Bool.
From Stdlib Require Import Floats.SpecFloat.
From stdpp Require Import base gmap sets list strings.

Set Warnings "-register-all,-clear-no-such-hyp".

Local Open Scope Z_scope.
Local Open Scope string_scope.
Local Open Scope list_scope.

(** ** JavaScript values *)

Module JS.

(** The values a JSON body or a Socket.IO payload can hold, plus
    [undefined].  A number is an IEEE double; [spec_float] keeps its
    zeros and NaN apart, which is what truthiness looks at. *)
Inductive value : Type :=
| VUndefined
| VNull
| VBool (b : bool)
| VNum (n : spec_float)
| VStr (s : string)
| VArr (items : list value)
| VObj (fields : list (string * value)).

(** An integer as a JavaScript number. *)
Definition num_of_Z (z : Z) : spec_float :=
  match z with
  | Z0 => S754_zero false
  | Zpos p => S754_finite false p 0
  | Zneg p => S754_finite true p 0
  end.

Definition VInt (z : Z) : value := VNum (num_of_Z z).

(** ToBoolean: [undefined], [null], [false], [+0], [-0], [NaN] and the
    empty string are falsy, everything else (objects and arrays
    included, empty or not) is truthy. *)
Definition truthy (v : value) : bool :=
  match v with
  | VUndefined | VNull => false
  | VBool b => b
  | VNum (S754_zero _) | VNum S754_nan => false
  | VNum _ => true
  | VStr s => negb (String.eqb s "")
  | VArr _ | VObj _ => true
  end.

(** Own properties of an object, first binding wins. *)
Fixpoint assoc (k : string) (fs : list (string * value)) : option value :=
  match fs with
  | [] => None
  | (k', v) :: rest => if String.eqb k k' then Some v else assoc k rest
  end.

Definition own_prop (v : value) (k : string) : option value :=
  match v with
  | VObj fs => assoc k fs
  | _ => None
  end.

Inductive exn : Type :=
| TypeError (msg : string).

(** [v.k] and the destructuring [const { k } = v].  Reading a property
    of [undefined] or [null] throws; a missing property reads as
    [undefined].  The keys this program reads ([order], [order_id],
    [timestamp], [order_number], [id], ...) are neither array indices
    nor members of a built-in prototype, so primitives and arrays
    answer [undefined] for them. *)
Definition get_prop (v : value) (k : string) : exn + value :=
  match v with
  | VUndefined | VNull =>
      inl (TypeError ("Cannot read properties of undefined or null: " +:+ k))
  | VObj fs => inr (default VUndefined (assoc k fs))
  | _ => inr VUndefined
  end.

(** ToString inside a template literal.  Only whether it throws matters
    here.  A parsed object has no callable property of its own, so an
    own [toString] field hides [Object.prototype.toString] and the
    conversion ends in a TypeError; an array joins the conversions of
    its items. *)
Fixpoint ToString_throws (v : value) : bool :=
  match v with
  | VObj fs => existsb (fun kv => String.eqb (fst kv) "toString") fs
  | VArr items => existsb ToString_throws items
  | _ => false
  end.

End JS.
Export JS.

(** ** What leaves the server *)

(** [socket.emit] addresses one socket, [io.to(room).emit] a room. *)
Inductive Target : Type :=
| ToSocket (id : string)
| ToRoom (room : string).

(** One emitted event, with the sockets it was handed to when it was
    emitted. *)
Record Packet : Type := mkPacket {
  target : Target;
  receivers : gset string;
  event : string;
  payload : value
}.

Record Response : Type := mkResponse {
  status : Z;
  body : value
}.

(** ** Server state *)

(** [connectedClients] is the counter of [server.js].  [sockets] and
    [rooms] are the transport's own registry: the connected sockets by id
    and the members of each room.  [sent] is the wire, oldest packet
    first. *)
Record Server : Type := mkServer {
  connectedClients : Z;
  sockets : gset string;
  rooms : gmap string (gset string);
  sent : list Packet
}.

Definition initial : Server :=
  {| connectedClients := 0; sockets := ∅; rooms := ∅; sent := [] |}.

Definition members (st : Server) (room : string) : gset string :=
  default ∅ (rooms st !! room).

(** ** The handler monad: state, and exceptions that keep the state *)

Definition Handler (A : Type) : Type := Server -> (exn + A) * Server.

Definition ret {A} (a : A) : Handler A := fun st => (inr a, st).

Definition throw {A} (e : exn) : Handler A := fun st => (inl e, st).

Definition bind {A B} (c : Handler A) (k : A -> Handler B) : Handler B :=
  fun st =>
    match c st with
    | (inl e, st') => (inl e, st')
    | (inr a, st') => k a st'
    end.

Definition lift {A} (r : exn + A) : Handler A :=
  match r with
  | inl e => throw e
  | inr a => ret a
  end.

Declare Scope handler_scope.
Delimit Scope handler_scope with handler.
Notation "'let*' x ':=' c1 'in' c2" := (bind c1 (fun x => c2))
  (at level 10, x name, c1 at level 100, c2 at level 200) : handler_scope.
Notation "'do*' c1 'in' c2" := (bind c1 (fun _ => c2))
  (at level 10, c1 at level 100, c2 at level 200) : handler_scope.
Local Open Scope handler_scope.

(** [connectedClients++], [connectedClients--] and a read of the counter. *)
Definition incr_connectedClients : Handler unit := fun st =>
  (inr tt, {| connectedClients := connectedClients st + 1;
              sockets := sockets st; rooms := rooms st; sent := sent st |}).

Definition decr_connectedClients : Handler unit := fun st =>
  (inr tt, {| connectedClients := connectedClients st - 1;
              sockets := sockets st; rooms := rooms st; sent := sent st |}).

Definition read_connectedClients : Handler Z := fun st =>
  (inr (connectedClients st), st).

(** [console.log] of a template literal: the interpolated values are
    converted to strings, which may throw; the line itself is not kept. *)
Definition console_log (interpolated : list value) : Handler unit :=
  if existsb ToString_throws interpolated
  then throw (TypeError "Cannot convert object to primitive value")
  else ret tt.

(** ** The transport, as the server uses it *)

(** [socket.join(room)]. *)
Definition socket_join (id room : string) : Handler unit := fun st =>
  (inr tt, {| connectedClients := connectedClients st;
              sockets := sockets st;
              rooms := <[room := {[id]} ∪ members st room]> (rooms st);
              sent := sent st |}).

Definition push (p : Packet) : Handler unit := fun st =>
  (inr tt, {| connectedClients := connectedClients st;
              sockets := sockets st; rooms := rooms st;
              sent := sent st ++ [p] |}).

(** [socket.emit(ev, data)]: to that socket, nobody else. *)
Definition socket_emit (id ev : string) (data : value) : Handler unit :=
  push {| target := ToSocket id; receivers := {[id]};
          event := ev; payload := data |}.

(** [io.to(room).emit(ev, data)]: to the members the room has now. *)
Definition io_to_emit (room ev : string) (data : value) : Handler unit :=
  fun st =>
    push {| target := ToRoom room; receivers := members st room;
            event := ev; payload := data |} st.

(** A socket is in the transport's registry from the moment it connects,
    and the transport has it join the room named after its own id; both
    happen before the ['connection'] listener runs. *)
Definition transport_open (id : string) (st : Server) : Server :=
  {| connectedClients := connectedClients st;
     sockets := {[id]} ∪ sockets st;
     rooms := <[id := {[id]} ∪ members st id]> (rooms st);
     sent := sent st |}.

(** When a socket closes it leaves every room and the registry, and only
    then are its ['disconnect'] listeners run. *)
Definition transport_close (id : string) (st : Server) : Server :=
  {| connectedClients := connectedClients st;
     sockets := sockets st ∖ {[id]};
     rooms := (fun m => m ∖ {[id]}) <$> rooms st;
     sent := sent st |}.

(** ** Socket listeners ([io.on('connection', ...)], lines 50 to 82) *)

Definition ROOM : string := "order_updates".

(** The body of the ['connection'] listener up to the registration of the
    per-socket listeners. *)
Definition on_connection (socket_id : string) : Handler unit :=
  do* incr_connectedClients in
  let* total := read_connectedClients in
  do* console_log [VStr socket_id; VInt total] in
  do* socket_join socket_id ROOM in
  do* console_log [VStr socket_id] in
  socket_emit socket_id "connection_established"
    (VObj [("message", VStr "Connected to order updates");
           ("clientId", VStr socket_id)]).

(** [data.timestamp || Date.now()] *)
Definition or_else (a b : value) : value := if truthy a then a else b.

(** The ['ping'] listener; [now] is what [Date.now()] reads. *)
Definition on_ping (socket_id : string) (data : value) (now : Z)
  : Handler unit :=
  let* timestamp := lift (get_prop data "timestamp") in
  do* socket_emit socket_id "pong"
        (VObj [("timestamp", or_else timestamp (VInt now))]) in
  console_log [VStr socket_id].

(** The ['disconnect'] listener. *)
Definition on_disconnect (socket_id reason : string) : Handler unit :=
  do* decr_connectedClients in
  let* remaining := read_connectedClients in
  console_log [VStr socket_id; VStr reason; VInt remaining].

(** The ['error'] listener: [console.error] with the error as an argument
    of its own, not interpolated. *)
Definition on_error (socket_id : string) (error : value) : Handler unit :=
  console_log [VStr socket_id].

(** ** HTTP handlers (lines 90 to 367) *)

(** [res.status(400).json({ error })] and [res.json(...)]. *)
Definition bad_request (msg : string) : Response :=
  {| status := 400; body := VObj [("error", VStr msg)] |}.

Definition ok_json (v : value) : Response := {| status := 200; body := v |}.

Definition broadcasted (msg : string) : Handler Response :=
  let* clients := read_connectedClients in
  ret (ok_json (VObj [("success", VBool true);
                      ("message", VStr msg);
                      ("clients", VInt clients)])).

Definition post_order_created (req_body : value) : Handler Response :=
  let* order := lift (get_prop req_body "order") in
  if negb (truthy order) then ret (bad_request "Order data is required") else
  let* order_number := lift (get_prop order "order_number") in
  do* console_log [order_number] in
  do* io_to_emit ROOM "order_created"
        (VObj [("type", VStr "order_created"); ("order", order)]) in
  broadcasted "Order created event broadcasted".

Definition post_order_updated (req_body : value) : Handler Response :=
  let* order := lift (get_prop req_body "order") in
  if negb (truthy order) then ret (bad_request "Order data is required") else
  let* order_number := lift (get_prop order "order_number") in
  do* console_log [order_number] in
  do* io_to_emit ROOM "order_updated"
        (VObj [("type", VStr "order_updated"); ("order", order)]) in
  broadcasted "Order updated event broadcasted".

Definition post_order_deleted (req_body : value) : Handler Response :=
  let* order_id := lift (get_prop req_body "order_id") in
  if negb (truthy order_id) then ret (bad_request "Order ID is required") else
  do* console_log [order_id] in
  do* io_to_emit ROOM "order_deleted"
        (VObj [("type", VStr "order_deleted"); ("order_id", order_id)]) in
  broadcasted "Order deleted event broadcasted".

Definition post_order_status_changed (req_body : value) : Handler Response :=
  let* order_id := lift (get_prop req_body "order_id") in
  let* old_status := lift (get_prop req_body "old_status") in
  let* new_status := lift (get_prop req_body "new_status") in
  let* order := lift (get_prop req_body "order") in
  if negb (truthy order_id) || negb (truthy old_status)
     || negb (truthy new_status) || negb (truthy order)
  then ret (bad_request "Missing required fields") else
  let* order_number := lift (get_prop order "order_number") in
  do* console_log [order_number; old_status; new_status] in
  do* io_to_emit ROOM "order_status_changed"
        (VObj [("type", VStr "order_status_changed");
               ("order_id", order_id);
               ("old_status", old_status);
               ("new_status", new_status);
               ("order", order)]) in
  broadcasted "Order status changed event broadcasted".

Definition post_order_image_uploaded (req_body : value) : Handler Response :=
  let* order_id := lift (get_prop req_body "order_id") in
  let* image := lift (get_prop req_body "image") in
  let* order := lift (get_prop req_body "order") in
  if negb (truthy order_id) || negb (truthy image) || negb (truthy order)
  then ret (bad_request "Missing required fields") else
  let* order_number := lift (get_prop order "order_number") in
  do* console_log [order_number] in
  do* io_to_emit ROOM "order_image_uploaded"
        (VObj [("type", VStr "order_image_uploaded");
               ("order_id", order_id);
               ("image", image);
               ("order", order)]) in
  broadcasted "Order image uploaded event broadcasted".

Definition post_order_image_deleted (req_body : value) : Handler Response :=
  let* order_id := lift (get_prop req_body "order_id") in
  let* image_id := lift (get_prop req_body "image_id") in
  let* order := lift (get_prop req_body "order") in
  if negb (truthy order_id) || negb (truthy image_id) || negb (truthy order)
  then ret (bad_request "Missing required fields") else
  let* order_number := lift (get_prop order "order_number") in
  do* console_log [order_number] in
  do* io_to_emit ROOM "order_image_deleted"
        (VObj [("type", VStr "order_image_deleted");
               ("order_id", order_id);
               ("image_id", image_id);
               ("order", order)]) in
  broadcasted "Order image deleted event broadcasted".

Definition post_order_assigned (req_body : value) : Handler Response :=
  let* order_id := lift (get_prop req_body "order_id") in
  let* assigned_users := lift (get_prop req_body "assigned_users") in
  let* order := lift (get_prop req_body "order") in
  if negb (truthy order_id) || negb (truthy assigned_users)
     || negb (truthy order)
  then ret (bad_request "Missing required fields") else
  let* order_number := lift (get_prop order "order_number") in
  do* console_log [order_number] in
  do* io_to_emit ROOM "order_assigned"
        (VObj [("type", VStr "order_assigned");
               ("order_id", order_id);
               ("assigned_users", assigned_users);
               ("order", order)]) in
  broadcasted "Order assigned event broadcasted".

Definition post_comment_created (req_body : value) : Handler Response :=
  let* order_id := lift (get_prop req_body "order_id") in
  let* comment := lift (get_prop req_body "comment") in
  if negb (truthy order_id) || negb (truthy comment)
  then ret (bad_request "Missing required fields") else
  let* comment_id := lift (get_prop comment "id") in
  do* console_log [order_id; comment_id] in
  do* io_to_emit ROOM "comment_created"
        (VObj [("type", VStr "comment_created");
               ("order_id", order_id);
               ("comment", comment)]) in
  broadcasted "Comment created event broadcasted".

Definition post_comment_updated (req_body : value) : Handler Response :=
  let* order_id := lift (get_prop req_body "order_id") in
  let* comment := lift (get_prop req_body "comment") in
  if negb (truthy order_id) || negb (truthy comment)
  then ret (bad_request "Missing required fields") else
  let* comment_id := lift (get_prop comment "id") in
  do* console_log [order_id; comment_id] in
  do* io_to_emit ROOM "comment_updated"
        (VObj [("type", VStr "comment_updated");
               ("order_id", order_id);
               ("comment", comment)]) in
  broadcasted "Comment updated event broadcasted".

Definition post_comment_deleted (req_body : value) : Handler Response :=
  let* order_id := lift (get_prop req_body "order_id") in
  let* comment_id := lift (get_prop req_body "comment_id") in
  if negb (truthy order_id) || negb (truthy comment_id)
  then ret (bad_request "Missing required fields") else
  do* console_log [order_id; comment_id] in
  do* io_to_emit ROOM "comment_deleted"
        (VObj [("type", VStr "comment_deleted");
               ("order_id", order_id);
               ("comment_id", comment_id)]) in
  broadcasted "Comment deleted event broadcasted".

(** [GET /health]; [uptime] is what [process.uptime()] reads. *)
Definition get_health (uptime : spec_float) : Handler Response :=
  let* clients := read_connectedClients in
  ret (ok_json (VObj [("status", VStr "ok");
                      ("connectedClients", VInt clients);
                      ("uptime", VNum uptime)])).

(** [GET /] *)
Definition get_root : Handler Response :=
  let* clients := read_connectedClients in
  ret (ok_json (VObj [("message", VStr "Socket.IO Server for Seefood Orders");
                      ("version", VStr "1.0.0");
                      ("connectedClients", VInt clients)])).

(** The [app.post] registrations, by path. *)
Definition app_post (path : string) : option (value -> Handler Response) :=
  if String.eqb path "/broadcast/order-created" then Some post_order_created
  else if String.eqb path "/broadcast/order-updated" then Some post_order_updated
  else if String.eqb path "/broadcast/order-deleted" then Some post_order_deleted
  else if String.eqb path "/broadcast/order-status-changed"
    then Some post_order_status_changed
  else if String.eqb path "/broadcast/order-image-uploaded"
    then Some post_order_image_uploaded
  else if String.eqb path "/broadcast/order-image-deleted"
    then Some post_order_image_deleted
  else if String.eqb path "/broadcast/order-assigned" then Some post_order_assigned
  else if String.eqb path "/broadcast/comment-created"
    then Some post_comment_created
  else if String.eqb path "/broadcast/comment-updated"
    then Some post_comment_updated
  else if String.eqb path "/broadcast/comment-deleted"
    then Some post_comment_deleted
  else None.

(** Express answers a path nobody registered with 404. *)
Definition not_found : Response := {| status := 404; body := VUndefined |}.

Definition handle_post (path : string) (req_body : value) : Handler Response :=
  match app_post path with
  | Some handler => handler req_body
  | None => ret not_found
  end.

(** ** The event loop *)

(** What the process is handed, one event at a time: socket events from
    the transport and HTTP requests from Express, each with the readings
    of the clock it needs. *)
Inductive Event : Type :=
| Connection (socket_id : string)
| Ping (socket_id : string) (data : value) (now : Z)
| Disconnect (socket_id reason : string)
| SocketError (socket_id : string) (error : value)
| Post (path : string) (req_body : value)
| GetHealth (uptime : spec_float)
| GetRoot.

(** What the listener that ran left behind: nothing, an HTTP response, or
    an exception (which Express turns into a 500 for an HTTP handler). *)
Inductive Output : Type :=
| Done
| Replied (r : Response)
| Threw (e : exn).

Definition listener (c : Handler unit) (st : Server) : Output * Server :=
  match c st with
  | (inl e, st') => (Threw e, st')
  | (inr _, st') => (Done, st')
  end.

Definition endpoint (c : Handler Response) (st : Server) : Output * Server :=
  match c st with
  | (inl e, st') => (Threw e, st')
  | (inr r, st') => (Replied r, st')
  end.

(** One event.  The listeners carry no guard of their own: whenever one is
    run, it does what [server.js] says. *)
Definition step (st : Server) (ev : Event) : Output * Server :=
  match ev with
  | Connection id => listener (on_connection id) (transport_open id st)
  | Ping id data now => listener (on_ping id data now) st
  | Disconnect id reason =>
      listener (on_disconnect id reason) (transport_close id st)
  | SocketError id error => listener (on_error id error) st
  | Post path req_body => endpoint (handle_post path req_body) st
  | GetHealth uptime => endpoint (get_health uptime) st
  | GetRoot => endpoint get_root st
  end.

Definition after (st : Server) (ev : Event) : Server := snd (step st ev).

Definition run (st : Server) (evs : list Event) : Server :=
  fold_left after evs st.

(** The packets an event put on the wire. *)
Definition emitted (st : Server) (ev : Event) : list Packet :=
  drop (length (sent st)) (sent (after st ev)).

(** The transport's delivery discipline: a ['connection'] brings a socket
    whose id no connected socket has, and ['ping'], ['error'] and
    ['disconnect'] come from a connected socket, so ['disconnect'] comes
    once per connection. *)
Definition admissible (st : Server) (ev : Event) : bool :=
  match ev with
  | Connection id => bool_decide (id ∉ sockets st)
  | Ping id _ _ | SocketError id _ | Disconnect id _ =>
      bool_decide (id ∈ sockets st)
  | Post _ _ | GetHealth _ | GetRoot => true
  end.

Fixpoint lifecycle (st : Server) (evs : list Event) : bool :=
  match evs with
  | [] => true
  | ev :: rest => admissible st ev && lifecycle (after st ev) rest
  end.

(** The transport runs the listeners of a socket only while that socket
    is connected: once a socket has closed, nothing that still arrives for
    it (a second close, a late packet) reaches [server.js]. *)
Definition deliver (st : Server) (ev : Event) : Output * Server :=
  match ev with
  | Ping id _ _ | SocketError id _ | Disconnect id _ =>
      if bool_decide (id ∈ sockets st) then step st ev else (Done, st)
  | Connection _ | Post _ _ | GetHealth _ | GetRoot => step st ev
  end.

(** ** The contract of section 6, as a table *)

Inductive Kind : Type :=
| OrderCreated | OrderUpdated | OrderDeleted | OrderStatusChanged
| OrderImageUploaded | OrderImageDeleted | OrderAssigned
| CommentCreated | CommentUpdated | CommentDeleted.

Definition path_of (k : Kind) : string :=
  match k with
  | OrderCreated => "/broadcast/order-created"
  | OrderUpdated => "/broadcast/order-updated"
  | OrderDeleted => "/broadcast/order-deleted"
  | OrderStatusChanged => "/broadcast/order-status-changed"
  | OrderImageUploaded => "/broadcast/order-image-uploaded"
  | OrderImageDeleted => "/broadcast/order-image-deleted"
  | OrderAssigned => "/broadcast/order-assigned"
  | CommentCreated => "/broadcast/comment-created"
  | CommentUpdated => "/broadcast/comment-updated"
  | CommentDeleted => "/broadcast/comment-deleted"
  end.

Definition type_of (k : Kind) : string :=
  match k with
  | OrderCreated => "order_created"
  | OrderUpdated => "order_updated"
  | OrderDeleted => "order_deleted"
  | OrderStatusChanged => "order_status_changed"
  | OrderImageUploaded => "order_image_uploaded"
  | OrderImageDeleted => "order_image_deleted"
  | OrderAssigned => "order_assigned"
  | CommentCreated => "comment_created"
  | CommentUpdated => "comment_updated"
  | CommentDeleted => "comment_deleted"
  end.

Definition required (k : Kind) : list string :=
  match k with
  | OrderCreated | OrderUpdated => ["order"]
  | OrderDeleted => ["order_id"]
  | OrderStatusChanged => ["order_id"; "old_status"; "new_status"; "order"]
  | OrderImageUploaded => ["order_id"; "image"; "order"]
  | OrderImageDeleted => ["order_id"; "image_id"; "order"]
  | OrderAssigned => ["order_id"; "assigned_users"; "order"]
  | CommentCreated | CommentUpdated => ["order_id"; "comment"]
  | CommentDeleted => ["order_id"; "comment_id"]
  end.

(** The [<event>] of ["<event> event broadcasted"]. *)
Definition label (k : Kind) : string :=
  match k with
  | OrderCreated => "Order created"
  | OrderUpdated => "Order updated"
  | OrderDeleted => "Order deleted"
  | OrderStatusChanged => "Order status changed"
  | OrderImageUploaded => "Order image uploaded"
  | OrderImageDeleted => "Order image deleted"
  | OrderAssigned => "Order assigned"
  | CommentCreated => "Comment created"
  | CommentUpdated => "Comment updated"
  | CommentDeleted => "Comment deleted"
  end.

(** The field [f] of a body as the handler's destructuring sees it. *)
Definition field (v : value) (f : string) : value :=
  default VUndefined (own_prop v f).

Definition nullish (v : value) : bool :=
  match v with
  | VUndefined | VNull => true
  | _ => false
  end.

(** Field [f] is there and its value is truthy. *)
Definition present_truthy (req_body : value) (f : string) : bool :=
  match own_prop req_body f with
  | Some v => truthy v
  | None => false
  end.

(** The event an accepted request is turned into: [type], then the fields
    as received. *)
Definition event_of (k : Kind) (req_body : value) : value :=
  VObj (("type", VStr (type_of k))
          :: map (fun f => (f, field req_body f)) (required k)).

Definition broadcast_of (k : Kind) (req_body : value) (st : Server) : Packet :=
  {| target := ToRoom ROOM; receivers := members st ROOM;
     event := type_of k; payload := event_of k req_body |}.

Definition success_of (k : Kind) (st : Server) : Response :=
  {| status := 200;
     body := VObj [("success", VBool true);
                   ("message", VStr (label k +:+ " event broadcasted"));
                   ("clients", VInt (connectedClients st))] |}.

(** The error text of each handler's 400. *)
Definition error_of (k : Kind) : string :=
  match k with
  | OrderCreated | OrderUpdated => "Order data is required"
  | OrderDeleted => "Order ID is required"
  | _ => "Missing required fields"
  end.

(** The values each handler interpolates in its log line, which sits
    between the validation and the broadcast. *)
Definition log_line (k : Kind) (req_body : value) : list value :=
  let order_number := field (field req_body "order") "order_number" in
  let comment_id := field (field req_body "comment") "id" in
  match k with
  | OrderCreated | OrderUpdated => [order_number]
  | OrderDeleted => [field req_body "order_id"]
  | OrderStatusChanged =>
      [order_number; field req_body "old_status"; field req_body "new_status"]
  | OrderImageUploaded | OrderImageDeleted | OrderAssigned => [order_number]
  | CommentCreated | CommentUpdated => [field req_body "order_id"; comment_id]
  | CommentDeleted => [field req_body "order_id"; field req_body "comment_id"]
  end.

Definition with_sent (st : Server) (ps : list Packet) : Server :=
  {| connectedClients := connectedClients st; sockets := sockets st;
     rooms := rooms st; sent := sent st ++ ps |}.

(** The connections that are live, read off the event sequence alone:
    connected, and not disconnected since. *)
Definition live_after (conns : gset string) (ev : Event) : gset string :=
  match ev with
  | Connection id => {[id]} ∪ conns
  | Disconnect id _ => conns ∖ {[id]}
  | _ => conns
  end.

Definition live (evs : list Event) : gset string :=
  fold_left live_after evs ∅.

Definition is_connect (ev : Event) : bool :=
  match ev with Connection _ => true | _ => false end.

Definition is_disconnect (ev : Event) : bool :=
  match ev with Disconnect _ _ => true | _ => false end.

(** The registry and the counter agree; ["order_updates"] holds exactly
    the connected sockets, the room named after a connected socket holds
    that socket, and there is nothing else in any room. *)
Definition consistent (st : Server) : Prop :=
  connectedClients st = Z.of_nat (size (sockets st))
  /\ forall room,
       members st room =
         (if decide (room = ROOM) then sockets st else ∅)
         ∪ (if decide (room ∈ sockets st) then {[room]} else ∅).


(** A computation that touches neither the counter nor the registry. *)
Definition quiet {A} (c : Handler A) : Prop :=
  forall st, exists ps, snd (c st) = with_sent st ps.

(** The counter, the connected sockets and the rooms, without the wire. *)
Definition registry (st : Server) : Z * gset string * gmap string (gset string) :=
  (connectedClients st, sockets st, rooms st).

(** The acknowledgment of a connect and the answer to a ping. *)
Definition ack (id : string) : Packet :=
  {| target := ToSocket id; receivers := {[id]};
     event := "connection_established";
     payload := VObj [("message", VStr "Connected to order updates");
                      ("clientId", VStr id)] |}.

Definition pong (id : string) (timestamp : value) : Packet :=
  {| target := ToSocket id; receivers := {[id]};
     event := "pong"; payload := VObj [("timestamp", timestamp)] |}.

(** ** Configuration (lines 16 to 20) *)

Module Config.

(** An environment variable is a string or is not set.  A string is kept
    here as its UTF-16 code units, which is what [split] and [trim] walk
    over. *)
Definition units (s : string) : list N :=
  map Ascii.N_of_ascii (String.list_ascii_of_string s).

Definition COMMA : N := 44%N.

(** WhiteSpace and LineTerminator of the language: what [trim] strips. *)
Definition is_white_space (c : N) : bool :=
  existsb (N.eqb c)
    [9; 10; 11; 12; 13; 32; 160; 5760; 8232; 8233; 8239; 8287; 12288; 65279]%N
  || (N.leb 8192 c && N.leb c 8202).

(** [s.split(',')]: the pieces between the commas, empty ones included;
    a string without comma is its own single piece. *)
Fixpoint split (s : list N) : list (list N) :=
  match s with
  | [] => [[]]
  | c :: rest =>
      if N.eqb c COMMA then [] :: split rest
      else match split rest with
           | piece :: pieces => (c :: piece) :: pieces
           | [] => [[c]]
           end
  end.

Fixpoint trim_start (s : list N) : list N :=
  match s with
  | [] => []
  | c :: rest => if is_white_space c then trim_start rest else s
  end.

Fixpoint trim_end (s : list N) : list N :=
  match s with
  | [] => []
  | c :: rest =>
      match trim_end rest with
      | [] => if is_white_space c then [] else [c]
      | kept => c :: kept
      end
  end.

(** [origin.trim()] *)
Definition trim (s : list N) : list N := trim_end (trim_start s).

(** [CORS_ORIGINS]: the variable split and trimmed when it is set to a
    non-empty string, the two localhost origins otherwise. *)
Definition CORS_ORIGINS (env : option (list N)) : list (list N) :=
  match env with
  | Some ((_ :: _) as s) => map trim (split s)
  | _ => [units "http://localhost:3000"; units "http://127.0.0.1:3000"]
  end.

(** [origins.join(',')] *)
Fixpoint join (pieces : list (list N)) : list N :=
  match pieces with
  | [] => []
  | [piece] => piece
  | piece :: rest => piece ++ COMMA :: join rest
  end.

Definition commas (s : list N) : nat :=
  length (List.filter (N.eqb COMMA) s).

End Config.

(** ** The wire, classified *)

Definition kinds : list Kind :=
  [OrderCreated; OrderUpdated; OrderDeleted; OrderStatusChanged;
   OrderImageUploaded; OrderImageDeleted; OrderAssigned;
   CommentCreated; CommentUpdated; CommentDeleted].

Definition is_ack (p : Packet) : bool :=
  String.eqb (event p) "connection_established".

(** The three shapes a packet of this server has: an acknowledgment or a
    pong for one socket, or one of the ten events for the room, tagged
    with its own name. *)
Definition well_formed (p : Packet) : Prop :=
  match target p with
  | ToSocket id =>
      receivers p = {[id]}
      /\ (event p = "connection_established" \/ event p = "pong")
  | ToRoom room =>
      room = "order_updates"
      /\ (exists k, event p = type_of k)
      /\ own_prop (payload p) "type" = Some (VStr (event p))
  end.

(** What an event can put on the wire in state [st]. *)
Definition may_emit (st : Server) (ev : Event) (ps : list Packet) : Prop :=
  match ev with
  | Connection id => ps = [ack id]
  | Ping id _ _ => ps = [] \/ exists timestamp, ps = [pong id timestamp]
  | Post path req_body =>
      ps = [] \/ exists k, path = path_of k /\ ps = [broadcast_of k req_body st]
  | Disconnect _ _ | SocketError _ _ | GetHealth _ | GetRoot => ps = []
  end.

(** Every packet reaches only sockets that were sent their
    [connection_established] no later than it. *)
Definition acknowledged_first (wire : list Packet) : Prop :=
  forall (i : nat) (p : Packet) (id : string),
    wire !! i = Some p -> id ∈ receivers p ->
    exists j : nat, (j <= i)%nat /\ wire !! j = Some (ack id).

(** A request the validation lets through and whose log line renders. *)
Definition acceptable (req : Kind * value) : bool :=
  forallb (present_truthy (snd req)) (required (fst req))
  && negb (existsb ToString_throws (log_line (fst req) (snd req))).

Definition post_of (req : Kind * value) : Event :=
  Post (path_of (fst req)) (snd req).

(** * Properties *)

(** ** Reading fields *)

Lemma get_prop_field (v : value) (f : string) :
  nullish v = false -> get_prop v f = inr (field v f).
Proof. destruct v; simpl; intros H; try discriminate H; reflexivity. Qed.

Lemma truthy_not_nullish (v : value) : truthy v = true -> nullish v = false.
Proof. destruct v; simpl; intros H; try discriminate H; reflexivity. Qed.

Lemma present_truthy_field (b : value) (f : string) :
  present_truthy b f = truthy (field b f).
Proof. unfold present_truthy, field. destruct (own_prop b f); reflexivity. Qed.

Lemma present_not_nullish (b : value) (f : string) :
  present_truthy b f = true -> nullish b = false.
Proof. destruct b; simpl; intros H; try discriminate H; reflexivity. Qed.

Lemma app_post_path_of (k : Kind) :
  app_post (path_of k) =
    Some match k with
         | OrderCreated => post_order_created
         | OrderUpdated => post_order_updated
         | OrderDeleted => post_order_deleted
         | OrderStatusChanged => post_order_status_changed
         | OrderImageUploaded => post_order_image_uploaded
         | OrderImageDeleted => post_order_image_deleted
         | OrderAssigned => post_order_assigned
         | CommentCreated => post_comment_created
         | CommentUpdated => post_comment_updated
         | CommentDeleted => post_comment_deleted
         end.
Proof. destruct k; reflexivity. Qed.

(** ** Frame: what a handler leaves alone *)

Lemma quiet_ret {A} (a : A) : quiet (ret a).
Proof. intros st. exists []. unfold with_sent. simpl. rewrite app_nil_r. by destruct st. Qed.

Lemma quiet_throw {A} (e : exn) : quiet (@throw A e).
Proof. intros st. exists []. unfold with_sent. simpl. rewrite app_nil_r. by destruct st. Qed.

Lemma quiet_lift {A} (r : exn + A) : quiet (lift r).
Proof. destruct r; [apply quiet_throw | apply quiet_ret]. Qed.

Lemma quiet_bind {A B} (c : Handler A) (k : A -> Handler B) :
  quiet c -> (forall a, quiet (k a)) -> quiet (bind c k).
Proof.
  intros Hc Hk st. unfold bind. destruct (Hc st) as [ps Hps].
  destruct (c st) as [[e | a] st1]; simpl in Hps; subst st1.
  - by exists ps.
  - destruct (Hk a (with_sent st ps)) as [qs Hqs]. exists (ps ++ qs).
    rewrite Hqs. unfold with_sent. simpl. by rewrite app_assoc.
Qed.

Lemma quiet_if {A} (b : bool) (c1 c2 : Handler A) :
  quiet c1 -> quiet c2 -> quiet (if b then c1 else c2).
Proof. by destruct b. Qed.

Lemma quiet_read : quiet read_connectedClients.
Proof. apply (quiet_ret tt). Qed.

Lemma quiet_console_log (vs : list value) : quiet (console_log vs).
Proof. unfold console_log. apply quiet_if; [apply quiet_throw | apply quiet_ret]. Qed.

Lemma quiet_push (p : Packet) : quiet (push p).
Proof. intros st. by exists [p]. Qed.

Lemma quiet_io_to_emit (room ev : string) (data : value) :
  quiet (io_to_emit room ev data).
Proof. intros st. unfold io_to_emit. apply quiet_push. Qed.

Lemma quiet_socket_emit (id ev : string) (data : value) :
  quiet (socket_emit id ev data).
Proof. apply quiet_push. Qed.

Lemma quiet_broadcasted (msg : string) : quiet (broadcasted msg).
Proof. apply quiet_bind; [apply quiet_read | intros; apply quiet_ret]. Qed.

Create HintDb quiet.
#[local] Hint Resolve quiet_ret quiet_throw quiet_lift quiet_read
  quiet_console_log quiet_io_to_emit quiet_socket_emit quiet_broadcasted
  : quiet.

Ltac quiet_steps :=
  repeat first
    [ apply quiet_bind; [ | intros ? ]
    | apply quiet_if
    | solve [ auto with quiet ] ].

Lemma quiet_handle_post (path : string) (req_body : value) :
  quiet (handle_post path req_body).
Proof.
  unfold handle_post, app_post.
  repeat match goal with
         | |- context [if ?b then _ else _] => destruct b
         end;
    try apply quiet_ret;
    unfold post_order_created, post_order_updated, post_order_deleted,
      post_order_status_changed, post_order_image_uploaded,
      post_order_image_deleted, post_order_assigned, post_comment_created,
      post_comment_updated, post_comment_deleted;
    quiet_steps.
Qed.

(** ** One step, event by event *)

Lemma step_connection (st : Server) (id : string) :
  step st (Connection id) =
    (Done, {| connectedClients := connectedClients st + 1;
              sockets := {[id]} ∪ sockets st;
              rooms := <[ROOM := {[id]} ∪ members (transport_open id st) ROOM]>
                         (<[id := {[id]} ∪ members st id]> (rooms st));
              sent := sent st ++ [ack id] |}).
Proof. reflexivity. Qed.

Lemma step_disconnect (st : Server) (id reason : string) :
  step st (Disconnect id reason) =
    (Done, {| connectedClients := connectedClients st - 1;
              sockets := sockets st ∖ {[id]};
              rooms := (fun m => m ∖ {[id]}) <$> rooms st;
              sent := sent st |}).
Proof. reflexivity. Qed.

Lemma after_quiet (st : Server) (ev : Event) :
  is_connect ev = false -> is_disconnect ev = false ->
  exists ps, after st ev = with_sent st ps.
Proof.
  intros Hc Hd. unfold after.
  assert (Hl : forall c : Handler unit, quiet c ->
            exists ps, snd (listener c st) = with_sent st ps).
  { intros c Hq. destruct (Hq st) as [ps Hps]. exists ps.
    unfold listener. by destruct (c st) as [[e | u] st1]. }
  assert (He : forall c : Handler Response, quiet c ->
            exists ps, snd (endpoint c st) = with_sent st ps).
  { intros c Hq. destruct (Hq st) as [ps Hps]. exists ps.
    unfold endpoint. by destruct (c st) as [[e | r] st1]. }
  destruct ev; try discriminate; unfold step.
  - apply Hl. unfold on_ping. quiet_steps.
  - apply Hl. unfold on_error. quiet_steps.
  - apply He, quiet_handle_post.
  - apply He. unfold get_health. quiet_steps.
  - apply He. unfold get_root. quiet_steps.
Qed.

(** ** The counter and the registry stay in step *)

Lemma members_after_connection (st : Server) (id room : string) :
  members (after st (Connection id)) room =
    (if decide (room = ROOM) then {[id]} else ∅)
    ∪ (if decide (room = id) then {[id]} else ∅)
    ∪ members st room.
Proof.
  unfold after. rewrite step_connection. unfold members at 1. simpl.
  destruct (decide (room = ROOM)) as [Hr | Hr].
  - rewrite Hr, lookup_insert_eq. simpl. unfold members at 1. simpl.
    destruct (decide (ROOM = id)) as [Hi | Hi].
    + rewrite <- Hi, lookup_insert_eq. simpl. set_solver.
    + rewrite lookup_insert_ne by done. fold (members st ROOM). set_solver.
  - rewrite lookup_insert_ne by done.
    destruct (decide (room = id)) as [Hi | Hi].
    + rewrite Hi, lookup_insert_eq. simpl. set_solver.
    + rewrite lookup_insert_ne by done. fold (members st room). set_solver.
Qed.

Lemma members_after_disconnect (st : Server) (id reason room : string) :
  members (after st (Disconnect id reason)) room = members st room ∖ {[id]}.
Proof.
  unfold after. rewrite step_disconnect. unfold members. simpl.
  rewrite lookup_fmap. destruct (rooms st !! room); simpl; set_solver.
Qed.

Lemma consistent_initial : consistent initial.
Proof.
  split; [reflexivity |]. intros room. unfold members. simpl.
  rewrite lookup_empty. simpl. repeat case_decide; set_solver.
Qed.

Lemma consistent_connection (st : Server) (id : string) :
  consistent st -> id ∉ sockets st -> consistent (after st (Connection id)).
Proof.
  intros [Hn Hm] Hfresh. split.
  - unfold after. rewrite step_connection. simpl.
    rewrite size_union by (by apply disjoint_singleton_l).
    rewrite size_singleton. lia.
  - intros room. rewrite members_after_connection, Hm.
    change (sockets (after st (Connection id))) with ({[id]} ∪ sockets st).
    repeat case_decide; set_solver.
Qed.

Lemma consistent_disconnect (st : Server) (id reason : string) :
  consistent st -> id ∈ sockets st ->
  consistent (after st (Disconnect id reason)).
Proof.
  intros [Hn Hm] Hin. split.
  - unfold after. rewrite step_disconnect. simpl.
    assert (Hsub : ({[id]} : gset string) ⊆ sockets st)
      by (by apply singleton_subseteq_l).
    pose proof (subseteq_size _ _ Hsub) as Hle.
    rewrite size_difference by done.
    rewrite size_singleton in *. lia.
  - intros room. rewrite members_after_disconnect, Hm.
    change (sockets (after st (Disconnect id reason)))
      with (sockets st ∖ {[id]}).
    repeat case_decide; set_solver.
Qed.

(** In a consistent state ["order_updates"] holds the connected sockets. *)
Lemma members_order_updates (st : Server) :
  consistent st -> members st ROOM = sockets st.
Proof.
  intros [_ Hm]. rewrite Hm, decide_True by done. case_decide; set_solver.
Qed.

Lemma consistent_after (st : Server) (ev : Event) :
  consistent st -> admissible st ev = true -> consistent (after st ev).
Proof.
  intros Hc Ha.
  destruct (is_connect ev) eqn:Ec; [| destruct (is_disconnect ev) eqn:Ed].
  - destruct ev; try discriminate. simpl in Ha.
    apply consistent_connection; [done |]. by apply bool_decide_eq_true in Ha.
  - destruct ev; try discriminate. simpl in Ha.
    apply consistent_disconnect; [done |]. by apply bool_decide_eq_true in Ha.
  - destruct (after_quiet st ev Ec Ed) as [ps ->]. exact Hc.
Qed.

Lemma consistent_run (evs : list Event) (st : Server) :
  consistent st -> lifecycle st evs = true -> consistent (run st evs).
Proof.
  revert st. induction evs as [| ev evs IH]; intros st Hc Hl; [done |].
  simpl in Hl. apply andb_true_iff in Hl as [Ha Hl].
  simpl. apply IH; [by apply consistent_after | done].
Qed.

Lemma sockets_after (st : Server) (ev : Event) :
  sockets (after st ev) = live_after (sockets st) ev.
Proof.
  destruct (is_connect ev) eqn:Ec; [| destruct (is_disconnect ev) eqn:Ed].
  - by destruct ev.
  - by destruct ev.
  - destruct (after_quiet st ev Ec Ed) as [ps ->]. by destruct ev.
Qed.

Lemma sockets_run (evs : list Event) (st : Server) :
  sockets (run st evs) = fold_left live_after evs (sockets st).
Proof.
  revert st. induction evs as [| ev evs IH]; intros st; [done |].
  simpl. by rewrite IH, sockets_after.
Qed.

Lemma count_after (st : Server) (ev : Event) :
  connectedClients (after st ev) =
    connectedClients st
    + (if is_connect ev then 1 else 0) - (if is_disconnect ev then 1 else 0).
Proof.
  destruct (is_connect ev) eqn:Ec; [| destruct (is_disconnect ev) eqn:Ed].
  - destruct ev; try discriminate. simpl. lia.
  - destruct ev; try discriminate. simpl. lia.
  - destruct (after_quiet st ev Ec Ed) as [ps ->]. simpl. lia.
Qed.

Lemma count_run (evs : list Event) (st : Server) :
  connectedClients (run st evs) =
    connectedClients st
    + Z.of_nat (length (List.filter is_connect evs))
    - Z.of_nat (length (List.filter is_disconnect evs)).
Proof.
  revert st. induction evs as [| ev evs IH]; intros st; simpl; [lia |].
  rewrite IH, count_after.
  destruct (is_connect ev), (is_disconnect ev); simpl length; lia.
Qed.

(** A socket that is not connected is in no room. *)
Lemma not_connected_no_room (st : Server) (id room : string) :
  consistent st -> id ∉ sockets st -> id ∉ members st room.
Proof.
  intros [_ Hm] Hid. rewrite Hm. repeat case_decide; set_solver.
Qed.

Lemma emitted_with_sent (st : Server) (ev : Event) (ps : list Packet) :
  sent (after st ev) = sent st ++ ps -> emitted st ev = ps.
Proof. unfold emitted. intros ->. by rewrite drop_app_length. Qed.

(** ** Connection Count *)

(** C3: along every sequence of events in which the transport delivers
    connects and disconnects by its lifecycle (a connect brings a new
    socket, a disconnect ends a connected one), [connectedClients] equals
    the number of connections that connected and have not disconnected
    yet, and it is never negative.  Pings, socket errors and HTTP requests may be
    interleaved freely. *)
Theorem connection_count_is_live_connections (evs : list Event) :
  lifecycle initial evs = true ->
  connectedClients (run initial evs) = Z.of_nat (size (live evs))
  /\ 0 <= connectedClients (run initial evs).
Proof.
  intros Hl.
  destruct (consistent_run evs initial consistent_initial Hl) as [Hn _].
  rewrite Hn, sockets_run. fold (live evs). split; [reflexivity | lia].
Qed.

Lemma connection_count_is_live_connections_witness :
  let evs := [Connection "s1"; Connection "s2";
              Ping "s1" (VObj []) 1700000000000;
              Disconnect "s1" "transport close"; Connection "s3"] in
  lifecycle initial evs = true
  /\ connectedClients (run initial evs) = Z.of_nat (size (live evs))
  /\ 0 <= connectedClients (run initial evs).
Proof.
  split; [vm_compute; reflexivity |].
  apply connection_count_is_live_connections. vm_compute; reflexivity.
Defined.

(** ** Disconnect *)

Lemma deliver_admissible (st : Server) (ev : Event) :
  admissible st ev = true -> deliver st ev = step st ev.
Proof. destruct ev; simpl; intros Ha; by rewrite ?Ha. Qed.



(** ** Connect *)






(** ** Status and frame *)

(** C8: [GET /health] answers 200 with [status], [connectedClients] (the
    counter as it is now) and [uptime], in every state and without
    changing it; after three connects and one disconnect the counter it
    reports is 2. *)
Theorem health_reports_connected_clients :
  (forall st uptime,
      step st (GetHealth uptime) =
        (Replied {| status := 200;
                    body := VObj [("status", VStr "ok");
                                  ("connectedClients",
                                    VInt (connectedClients st));
                                  ("uptime", VNum uptime)] |}, st))
  /\ (forall evs uptime,
        length (List.filter is_connect evs) = 3%nat ->
        length (List.filter is_disconnect evs) = 1%nat ->
        fst (step (run initial evs) (GetHealth uptime)) =
          Replied {| status := 200;
                     body := VObj [("status", VStr "ok");
                                   ("connectedClients", VInt 2);
                                   ("uptime", VNum uptime)] |}).
Proof.
  split.
  - intros st uptime. simpl. by destruct st.
  - intros evs uptime H3 H1. simpl. unfold ok_json. do 4 f_equal.
    rewrite count_run, H3, H1. reflexivity.
Qed.

Lemma health_reports_connected_clients_witness :
  let evs := [Connection "s1"; Connection "s2";
              Disconnect "s2" "ping timeout"; Connection "s3"] in
  fst (step (run initial evs) (GetHealth (S754_finite false 3 0))) =
    Replied {| status := 200;
               body := VObj [("status", VStr "ok");
                             ("connectedClients", VInt 2);
                             ("uptime", VNum (S754_finite false 3 0))] |}.
Proof.
  apply (proj2 health_reports_connected_clients); reflexivity.
Defined.

(** C10: an ingestion request, whatever its path, body and outcome, leaves
    [connectedClients], the connected sockets and the membership of every
    room exactly as they were; so does every event other than a connect or
    a disconnect. *)
Theorem ingestion_leaves_the_registry_alone :
  (forall st path req_body,
      registry (after st (Post path req_body)) = registry st
      /\ members (after st (Post path req_body)) "order_updates"
         = members st "order_updates")
  /\ (forall st ev,
        is_connect ev = false -> is_disconnect ev = false ->
        registry (after st ev) = registry st).
Proof.
  split.
  - intros st path req_body.
    destruct (after_quiet st (Post path req_body)) as [ps ->]; done.
  - intros st ev Hc Hd. by destruct (after_quiet st ev Hc Hd) as [ps ->].
Qed.

Lemma ingestion_leaves_the_registry_alone_witness :
  let st := run initial [Connection "s1"; Connection "s2"] in
  registry (after st (Post "/broadcast/order-deleted"
                        (VObj [("order_id", VStr "123")]))) = registry st
  /\ registry (after st (Ping "s1" (VObj []) 1700000000000)) = registry st.
Proof.
  split.
  - apply (proj1 ingestion_leaves_the_registry_alone).
  - apply (proj2 ingestion_leaves_the_registry_alone); reflexivity.
Defined.

(** ** Heartbeat *)

Lemma step_ping (st : Server) (id : string) (data : value) (now : Z) :
  nullish data = false ->
  step st (Ping id data now) =
    (Done, with_sent st
             [pong id (or_else (field data "timestamp") (VInt now))]).
Proof.
  intros Hd. unfold step, listener, on_ping, bind.
  rewrite (get_prop_field _ _ Hd). reflexivity.
Qed.

(** C5, as the code has it: a ping whose payload carries a truthy
    [timestamp] is answered with [pong] carrying that very timestamp; a
    ping whose payload has no [timestamp], or a falsy one (0, NaN, the
    empty string, [false], [null]), is answered with [pong] carrying the
    server's clock.  Either way one packet leaves, to the pinging socket
    only, and the state is otherwise untouched. *)
Theorem ping_answers_pong_to_sender
    (st : Server) (id : string) (data : value) (now : Z) :
  nullish data = false ->
  step st (Ping id data now) =
    (Done,
     with_sent st
       [{| target := ToSocket id; receivers := {[id]}; event := "pong";
           payload :=
             VObj [("timestamp",
                    match own_prop data "timestamp" with
                    | Some t => if truthy t then t else VInt now
                    | None => VInt now
                    end)] |}]).
Proof.
  intros Hd. rewrite (step_ping _ _ _ _ Hd). unfold pong, or_else, field.
  by destruct (own_prop data "timestamp").
Qed.

Lemma ping_answers_pong_to_sender_witness :
  step initial (Ping "s1" (VObj [("timestamp", VInt 1234)]) 1700000000000) =
    (Done, with_sent initial [pong "s1" (VInt 1234)])
  /\ step initial (Ping "s1" (VObj []) 1700000000000) =
       (Done, with_sent initial [pong "s1" (VInt 1700000000000)]).
Proof.
  split.
  - exact (ping_answers_pong_to_sender initial "s1"
             (VObj [("timestamp", VInt 1234)]) 1700000000000 eq_refl).
  - exact (ping_answers_pong_to_sender initial "s1"
             (VObj []) 1700000000000 eq_refl).
Defined.

(** C5 as stated does not hold: the client supplies the timestamp 0 and
    the pong carries the server's clock instead. *)
Lemma ping_with_timestamp_zero_is_not_echoed :
  let data := VObj [("timestamp", VInt 0)] in
  let st := run initial [Connection "s1"] in
  own_prop data "timestamp" = Some (VInt 0)
  /\ emitted st (Ping "s1" data 1700000000000)
     = [pong "s1" (VInt 1700000000000)]
  /\ pong "s1" (VInt 1700000000000) <> pong "s1" (VInt 0).
Proof.
  split; [reflexivity |]. split.
  - apply emitted_with_sent. reflexivity.
  - intros Heq. apply (f_equal payload) in Heq. discriminate Heq.
Qed.

(** C9: a ping with no payload at all makes the listener throw when it
    reads [data.timestamp]; nothing is sent and the state is as before.
    With any payload that is neither [undefined] nor [null] the listener
    runs to its end and sends its pong. *)
Theorem ping_without_payload_throws_and_sends_nothing
    (st : Server) (id : string) (now : Z) :
  (exists e, step st (Ping id VUndefined now) = (Threw e, st))
  /\ emitted st (Ping id VUndefined now) = []
  /\ (forall data,
        nullish data = false ->
        fst (step st (Ping id data now)) = Done
        /\ exists timestamp,
             emitted st (Ping id data now) = [pong id timestamp]).
Proof.
  split; [| split].
  - eexists. reflexivity.
  - unfold emitted, after. simpl. apply drop_all.
  - intros data Hd. rewrite (step_ping _ _ _ _ Hd). split; [reflexivity |].
    eexists. apply emitted_with_sent. unfold after.
    by rewrite (step_ping _ _ _ _ Hd).
Qed.

Lemma ping_without_payload_throws_and_sends_nothing_witness :
  let st := run initial [Connection "s1"] in
  fst (step st (Ping "s1" (VObj []) 1700000000000)) = Done
  /\ exists timestamp,
       emitted st (Ping "s1" (VObj []) 1700000000000) = [pong "s1" timestamp].
Proof.
  apply (proj2 (proj2 (ping_without_payload_throws_and_sends_nothing
                         (run initial [Connection "s1"]) "s1" 1700000000000))).
  reflexivity.
Defined.

(** ** Ingestion *)

Lemma required_not_nullish (k : Kind) (req_body : value) :
  forallb (present_truthy req_body) (required k) = true ->
  nullish req_body = false.
Proof.
  destruct k; simpl; intros H; apply andb_true_iff in H as [H _];
    exact (present_not_nullish _ _ H).
Qed.

Ltac unfold_posts :=
  unfold post_order_created, post_order_updated, post_order_deleted,
    post_order_status_changed, post_order_image_uploaded,
    post_order_image_deleted, post_order_assigned, post_comment_created,
    post_comment_updated, post_comment_deleted.

(** The destructuring at the head of a handler, on a body that is there. *)
Ltac read_fields Hnn :=
  repeat (rewrite (get_prop_field _ _ Hnn); cbn [bind lift ret]).

(** Past the validation a handler either trips over its log line, before
    anything is sent, or broadcasts once and answers 200. *)
Lemma post_accepted (k : Kind) (req_body : value) (st : Server) :
  forallb (present_truthy req_body) (required k) = true ->
  step st (Post (path_of k) req_body) =
    if existsb ToString_throws (log_line k req_body)
    then (Threw (TypeError "Cannot convert object to primitive value"), st)
    else (Replied (success_of k st),
          with_sent st [broadcast_of k req_body st]).
Proof.
  intros Hreq.
  pose proof (required_not_nullish k req_body Hreq) as Hnn.
  unfold step, endpoint, handle_post. rewrite app_post_path_of.
  destruct k; cbn [required forallb] in Hreq; cbn [log_line];
    rewrite ?present_truthy_field, ?andb_true_iff in Hreq;
    unfold_posts; cbn [bind]; read_fields Hnn.
  all: repeat match type of Hreq with
              | _ /\ _ => destruct Hreq as [?Ht Hreq]
              end.
  all: repeat match goal with
              | H : truthy ?v = true |- _ =>
                  rewrite ?H, ?(get_prop_field v _ (truthy_not_nullish v H));
                  revert H
              end; intros.
  all: cbn [negb orb bind lift ret]; unfold console_log.
  all: match goal with
       | |- context [existsb ToString_throws ?l] =>
           destruct (existsb ToString_throws l)
       end; reflexivity.
Qed.

Lemma post_rejected (k : Kind) (req_body : value) (st : Server) :
  nullish req_body = false ->
  forallb (present_truthy req_body) (required k) = false ->
  step st (Post (path_of k) req_body) =
    (Replied (bad_request (error_of k)), st).
Proof.
  intros Hnn Hreq.
  unfold step, endpoint, handle_post. rewrite app_post_path_of.
  destruct k; cbn [required forallb] in Hreq;
    rewrite ?present_truthy_field in Hreq;
    unfold_posts; cbn [bind]; read_fields Hnn.
  all: revert Hreq; repeat destruct (truthy _); cbn [andb negb orb]; intros Hreq;
    try discriminate Hreq; reflexivity.
Qed.

(** The room the handlers emit to is the room every socket joined on
    connect, so along the lifecycle an accepted request is handed to
    exactly the sockets connected when [emit] is called. *)
Lemma broadcast_receivers_are_the_connected
    (evs : list Event) (k : Kind) (req_body : value) :
  lifecycle initial evs = true ->
  forallb (present_truthy req_body) (required k) = true ->
  existsb ToString_throws (log_line k req_body) = false ->
  exists p,
    emitted (run initial evs) (Post (path_of k) req_body) = [p]
    /\ target p = ToRoom "order_updates"
    /\ receivers p = live evs.
Proof.
  intros Hl Hreq Hlog.
  pose proof (consistent_run evs initial consistent_initial Hl) as Hc.
  exists (broadcast_of k req_body (run initial evs)). split; [| split].
  - apply emitted_with_sent. unfold after.
    rewrite (post_accepted k req_body _ Hreq), Hlog. reflexivity.
  - reflexivity.
  - simpl. rewrite (members_order_updates _ Hc). apply sockets_run.
Qed.

(** C1, as the code has it: for each of the ten endpoints and every body
    whose required fields are all present with truthy values, and whose
    logged values can be turned into text, the handler answers 200 with
    [success: true], the endpoint's message and the current
    [connectedClients], leaves the registry alone, and broadcasts exactly
    once to ["order_updates"]: the event named after the kind, carrying
    [type] and then the required fields as received.  Nothing deduplicates:
    the same body sent twice is broadcast twice. *)
Theorem ingestion_broadcasts_truthy_bodies_once
    (k : Kind) (req_body : value) (st : Server) :
  forallb (present_truthy req_body) (required k) = true ->
  existsb ToString_throws (log_line k req_body) = false ->
  let event := {| target := ToRoom "order_updates";
                  receivers := members st "order_updates";
                  event := type_of k;
                  payload :=
                    VObj (("type", VStr (type_of k))
                            :: map (fun f => (f, field req_body f))
                                 (required k)) |} in
  step st (Post (path_of k) req_body) =
    (Replied {| status := 200;
                body := VObj [("success", VBool true);
                              ("message",
                                VStr (label k +:+ " event broadcasted"));
                              ("clients", VInt (connectedClients st))] |},
     with_sent st [event])
  /\ run st [Post (path_of k) req_body; Post (path_of k) req_body] =
       with_sent st [event; event].
Proof.
  intros Hreq Hlog event.
  assert (Hstep : forall st', step st' (Post (path_of k) req_body) =
            (Replied (success_of k st'),
             with_sent st' [broadcast_of k req_body st'])).
  { intros st'. rewrite (post_accepted k req_body st' Hreq). by rewrite Hlog. }
  split; [apply Hstep |].
  unfold run, fold_left, after. rewrite !Hstep. simpl.
  unfold with_sent. simpl. by rewrite <- app_assoc.
Qed.

Lemma ingestion_broadcasts_truthy_bodies_once_witness :
  let st := run initial [Connection "s1"; Connection "s2"] in
  let req_body :=
    VObj [("order_id", VStr "123"); ("old_status", VStr "created");
          ("new_status", VStr "weighing");
          ("order", VObj [("order_number", VInt 42)])] in
  let event := {| target := ToRoom "order_updates";
                  receivers := members st "order_updates";
                  event := "order_status_changed";
                  payload :=
                    VObj [("type", VStr "order_status_changed");
                          ("order_id", VStr "123");
                          ("old_status", VStr "created");
                          ("new_status", VStr "weighing");
                          ("order", VObj [("order_number", VInt 42)])] |} in
  step st (Post "/broadcast/order-status-changed" req_body) =
    (Replied {| status := 200;
                body := VObj [("success", VBool true);
                              ("message",
                                VStr "Order status changed event broadcasted");
                              ("clients", VInt 2)] |},
     with_sent st [event])
  /\ run st [Post "/broadcast/order-status-changed" req_body;
             Post "/broadcast/order-status-changed" req_body] =
       with_sent st [event; event].
Proof.
  exact (ingestion_broadcasts_truthy_bodies_once OrderStatusChanged
           (VObj [("order_id", VStr "123"); ("old_status", VStr "created");
                  ("new_status", VStr "weighing");
                  ("order", VObj [("order_number", VInt 42)])])
           (run initial [Connection "s1"; Connection "s2"])
           eq_refl eq_refl).
Defined.

(** C1 as stated does not hold.  [order_id: 0] is present, yet
    [/broadcast/order-deleted] answers 400 and broadcasts nothing; and a
    truthy [order_id] that is an object with a [toString] field of its own
    makes the handler throw on its log line, again before any broadcast. *)
Lemma present_fields_are_not_enough :
  let st := run initial [Connection "s1"] in
  let zero := VObj [("order_id", VInt 0)] in
  let odd := VObj [("order_id", VObj [("toString", VInt 1)])] in
  own_prop zero "order_id" = Some (VInt 0)
  /\ step st (Post "/broadcast/order-deleted" zero) =
       (Replied {| status := 400;
                   body := VObj [("error", VStr "Order ID is required")] |}, st)
  /\ own_prop odd "order_id" = Some (VObj [("toString", VInt 1)])
  /\ step st (Post "/broadcast/order-deleted" odd) =
       (Threw (TypeError "Cannot convert object to primitive value"), st).
Proof. repeat split. Qed.

(** C2, as the code has it: for each endpoint and every body that is
    there, if some required field is absent or falsy (null, [false], 0,
    NaN, the empty string) the handler answers 400 with the endpoint's
    [error] text and changes nothing: no broadcast, same counter, same
    registry.  The validation looks at the truthiness of each required
    field and at nothing else: a body whose required fields are all truthy
    is never answered 400, whatever the types of the values. *)
Theorem ingestion_rejects_absent_or_falsy_fields
    (k : Kind) (req_body : value) (st : Server) :
  nullish req_body = false ->
  (forallb (present_truthy req_body) (required k) = false ->
   step st (Post (path_of k) req_body) =
     (Replied {| status := 400;
                 body := VObj [("error", VStr (error_of k))] |}, st))
  /\ (forallb (present_truthy req_body) (required k) = true ->
      forall r, fst (step st (Post (path_of k) req_body)) = Replied r ->
                status r = 200).
Proof.
  intros Hnn. split.
  - intros Hreq. by apply post_rejected.
  - intros Hreq r. rewrite (post_accepted k req_body st Hreq).
    destruct (existsb ToString_throws (log_line k req_body)); simpl;
      intros Hr; [discriminate Hr |]. by injection Hr as <-.
Qed.

Lemma ingestion_rejects_absent_or_falsy_fields_witness :
  let st := run initial [Connection "s1"] in
  step st (Post "/broadcast/comment-deleted"
             (VObj [("order_id", VStr "123")])) =
    (Replied {| status := 400;
                body := VObj [("error", VStr "Missing required fields")] |},
     st).
Proof.
  apply (proj1 (ingestion_rejects_absent_or_falsy_fields CommentDeleted
                  (VObj [("order_id", VStr "123")])
                  (run initial [Connection "s1"]) eq_refl)).
  reflexivity.
Defined.

(** C2 as stated does not hold in its last clause: two bodies with the
    same field present, [order: true] and [order: false], are told apart
    by the validation, so it checks more than presence. *)
Lemma validation_tells_present_values_apart :
  let yes := VObj [("order", VBool true)] in
  let no := VObj [("order", VBool false)] in
  is_Some (own_prop yes "order")
  /\ is_Some (own_prop no "order")
  /\ fst (step initial (Post "/broadcast/order-created" yes)) =
       Replied {| status := 200;
                  body := VObj [("success", VBool true);
                                ("message",
                                  VStr "Order created event broadcasted");
                                ("clients", VInt 0)] |}
  /\ step initial (Post "/broadcast/order-created" no) =
       (Replied {| status := 400;
                   body := VObj [("error", VStr "Order data is required")] |},
        initial).
Proof. repeat split; by eexists. Qed.

(** ** What an event puts on the wire *)

Lemma app_post_cases (path : string) :
  app_post path = None \/ exists k, path = path_of k.
Proof.
  unfold app_post.
  repeat match goal with
         | |- context [String.eqb path ?s] =>
             destruct (String.eqb_spec path s) as [-> | _]
         end;
    first [ by left | right ].
  - by exists OrderCreated.
  - by exists OrderUpdated.
  - by exists OrderDeleted.
  - by exists OrderStatusChanged.
  - by exists OrderImageUploaded.
  - by exists OrderImageDeleted.
  - by exists OrderAssigned.
  - by exists CommentCreated.
  - by exists CommentUpdated.
  - by exists CommentDeleted.
Qed.

Lemma post_without_body (k : Kind) (req_body : value) (st : Server) :
  nullish req_body = true ->
  exists msg, step st (Post (path_of k) req_body) = (Threw (TypeError msg), st).
Proof.
  intros Hn. unfold step, endpoint, handle_post. rewrite app_post_path_of.
  destruct req_body; try discriminate Hn; destruct k; eexists; reflexivity.
Qed.

Lemma sent_with_sent (st : Server) (ps : list Packet) :
  sent (with_sent st ps) = sent st ++ ps.
Proof. reflexivity. Qed.

Lemma after_post (st : Server) (k : Kind) (req_body : value) :
  after st (Post (path_of k) req_body) = st
  \/ (acceptable (k, req_body) = true
      /\ after st (Post (path_of k) req_body) =
           with_sent st [broadcast_of k req_body st]).
Proof.
  unfold acceptable. cbn [fst snd]. unfold after.
  destruct (nullish req_body) eqn:Hn.
  { destruct (post_without_body k req_body st Hn) as [msg ->]. by left. }
  destruct (forallb (present_truthy req_body) (required k)) eqn:Hreq.
  - rewrite (post_accepted k req_body st Hreq).
    destruct (existsb ToString_throws (log_line k req_body)); [by left |].
    by right.
  - rewrite (post_rejected k req_body st Hn Hreq). by left.
Qed.

Lemma after_sent (st : Server) (ev : Event) :
  exists ps, sent (after st ev) = sent st ++ ps /\ may_emit st ev ps.
Proof.
  destruct ev as [id | id data now | id reason | id error | path req_body
                 | uptime | ]; unfold may_emit.
  - exists [ack id]. split; reflexivity.
  - destruct (nullish data) eqn:Hn.
    + exists []. split; [| by left]. rewrite app_nil_r.
      by destruct data; try discriminate Hn.
    + eexists. split; [| right; by eexists]. unfold after.
      by rewrite (step_ping st id data now Hn).
  - exists []. by rewrite app_nil_r.
  - exists []. by rewrite app_nil_r.
  - destruct (app_post_cases path) as [Hnone | [k ->]].
    + exists []. split; [| by left]. rewrite app_nil_r.
      unfold after, step, endpoint, handle_post. by rewrite Hnone.
    + destruct (after_post st k req_body) as [-> | [_ ->]].
      * exists []. split; [by rewrite app_nil_r | by left].
      * eexists. split; [reflexivity |]. right. by exists k.
  - exists []. by rewrite app_nil_r.
  - exists []. by rewrite app_nil_r.
Qed.

Lemma may_emit_short (st : Server) (ev : Event) (ps : list Packet) :
  may_emit st ev ps -> (length ps <= 1)%nat.
Proof.
  destruct ev; simpl; intros H;
    repeat match goal with
           | H : _ \/ _ |- _ => destruct H as [H | H]
           | H : exists _, _ |- _ => destruct H as [? H]
           | H : _ /\ _ |- _ => destruct H as [_ H]
           end; subst ps; simpl; lia.
Qed.

(** X1: every event only appends to what was sent before, and appends at
    most one packet; a disconnect, a socket error and the two GET
    endpoints append none. *)
Theorem every_event_appends_at_most_one_packet (st : Server) (ev : Event) :
  sent (after st ev) = sent st ++ emitted st ev
  /\ (length (emitted st ev) <= 1)%nat
  /\ (match ev with
      | Disconnect _ _ | SocketError _ _ | GetHealth _ | GetRoot =>
          emitted st ev = []
      | _ => True
      end).
Proof.
  destruct (after_sent st ev) as (ps & Hps & Hev).
  rewrite (emitted_with_sent st ev ps Hps). split; [done |].
  split; [by apply (may_emit_short st ev) |]. by destruct ev.
Qed.

Lemma well_formed_ack (id : string) : well_formed (ack id).
Proof. split; [reflexivity | by left]. Qed.

Lemma well_formed_pong (id : string) (timestamp : value) :
  well_formed (pong id timestamp).
Proof. split; [reflexivity | by right]. Qed.

Lemma well_formed_broadcast (k : Kind) (req_body : value) (st : Server) :
  well_formed (broadcast_of k req_body st).
Proof. split; [reflexivity |]. split; [by exists k | reflexivity]. Qed.

Lemma may_emit_well_formed (st : Server) (ev : Event) (ps : list Packet) :
  may_emit st ev ps -> Forall well_formed ps.
Proof.
  destruct ev; simpl; intros H;
    repeat match goal with
           | H : _ \/ _ |- _ => destruct H as [H | H]
           | H : exists _, _ |- _ => destruct H as [? H]
           | H : _ /\ _ |- _ => destruct H as [_ H]
           end; subst ps;
    first [ apply Forall_nil_2
          | apply Forall_singleton;
            first [ apply well_formed_ack | apply well_formed_pong
                  | apply well_formed_broadcast ] ].
Qed.

Lemma may_emit_acks (st : Server) (ev : Event) (ps : list Packet) :
  may_emit st ev ps ->
  length (List.filter is_ack ps) = if is_connect ev then 1%nat else 0%nat.
Proof.
  destruct ev; simpl; intros H;
    repeat match goal with
           | H : _ \/ _ |- _ => destruct H as [H | H]
           | H : exists _, _ |- _ => destruct H as [? H]
           | H : _ /\ _ |- _ => destruct H as [_ H]
           end; subst ps; try reflexivity.
  by match goal with k : Kind |- _ => destruct k end.
Qed.

(** X2: whatever events arrive, in whatever order, every packet the
    server has sent is of one of three shapes: [connection_established] or
    [pong] for exactly one socket, or a broadcast to the room
    ["order_updates"] whose name is one of the ten event kinds and whose
    payload carries that same name in [type]. *)
Theorem every_packet_is_an_ack_a_pong_or_a_tagged_broadcast
    (evs : list Event) :
  Forall well_formed (sent (run initial evs)).
Proof.
  assert (H : forall st, Forall well_formed (sent st) ->
                         Forall well_formed (sent (run st evs))).
  { induction evs as [| ev evs IH]; intros st Hst; [done |].
    simpl. apply IH. destruct (after_sent st ev) as (ps & -> & Hev).
    apply Forall_app. split; [done |]. by apply (may_emit_well_formed st ev). }
  apply H. constructor.
Qed.

(** X3: the server sends [connection_established] once for each connect
    and at no other time: on the wire there are exactly as many of them as
    there were connects, whatever else happened in between. *)
Theorem one_acknowledgment_per_connect (evs : list Event) :
  length (List.filter is_ack (sent (run initial evs)))
  = length (List.filter is_connect evs).
Proof.
  assert (H : forall st,
            length (List.filter is_ack (sent (run st evs)))
            = (length (List.filter is_ack (sent st))
               + length (List.filter is_connect evs))%nat).
  { induction evs as [| ev evs IH]; intros st; simpl; [lia |].
    rewrite IH. destruct (after_sent st ev) as (ps & -> & Hev).
    rewrite List.filter_app, length_app, (may_emit_acks st ev ps Hev).
    destruct (is_connect ev); simpl; lia. }
  by rewrite H.
Qed.

(** X4: for any sequence of events at all, lifecycle or not,
    [connectedClients] is the number of connects minus the number of
    disconnects seen so far; pings, socket errors and HTTP requests,
    failed ones included, never move it. *)
Theorem counter_is_connects_minus_disconnects (evs : list Event) :
  connectedClients (run initial evs)
  = Z.of_nat (length (List.filter is_connect evs))
    - Z.of_nat (length (List.filter is_disconnect evs)).
Proof. rewrite count_run. reflexivity. Qed.

(** X5: when the request has no body ([req.body] is [undefined] or
    [null]), each of the ten handlers throws a TypeError while it
    destructures the body: no validation answer, no broadcast, state
    unchanged. *)
Theorem request_without_body_throws
    (k : Kind) (req_body : value) (st : Server) :
  nullish req_body = true ->
  exists msg,
    step st (Post (path_of k) req_body) = (Threw (TypeError msg), st).
Proof. apply post_without_body. Qed.

Lemma request_without_body_throws_witness :
  exists msg,
    step (run initial [Connection "s1"])
         (Post "/broadcast/comment-created" VUndefined)
    = (Threw (TypeError msg), run initial [Connection "s1"]).
Proof.
  exact (request_without_body_throws CommentCreated VUndefined
           (run initial [Connection "s1"]) eq_refl).
Defined.

(** ** More on ingestion *)

(** X6: a handler looks at its required fields and at nothing else in the
    body: two bodies that agree on the endpoint's required fields get the
    same answer, the same broadcast and the same resulting state, whatever
    other fields they carry. *)
Theorem handlers_read_only_the_required_fields
    (k : Kind) (b1 b2 : value) (st : Server) :
  nullish b1 = false ->
  nullish b2 = false ->
  map (field b1) (required k) = map (field b2) (required k) ->
  step st (Post (path_of k) b1) = step st (Post (path_of k) b2).
Proof.
  intros Hn1 Hn2 Heq.
  unfold step, endpoint, handle_post. rewrite app_post_path_of.
  destruct k; cbn [required map] in Heq; unfold_posts; cbn [bind];
    read_fields Hn1; read_fields Hn2;
    injection Heq; intros;
    repeat match goal with
           | H : field b1 _ = field b2 _ |- _ => rewrite H; clear H
           end;
    reflexivity.
Qed.

Lemma handlers_read_only_the_required_fields_witness :
  let st := run initial [Connection "s1"] in
  step st (Post "/broadcast/order-deleted"
             (VObj [("order_id", VStr "123")]))
  = step st (Post "/broadcast/order-deleted"
               (VObj [("note", VStr "urgent"); ("order_id", VStr "123");
                      ("order", VNull)])).
Proof.
  exact (handlers_read_only_the_required_fields OrderDeleted
           (VObj [("order_id", VStr "123")])
           (VObj [("note", VStr "urgent"); ("order_id", VStr "123");
                  ("order", VNull)])
           (run initial [Connection "s1"]) eq_refl eq_refl eq_refl).
Defined.

Lemma with_sent_nil (st : Server) : with_sent st [] = st.
Proof. destruct st. unfold with_sent. simpl. by rewrite app_nil_r. Qed.

Lemma with_sent_app (st : Server) (ps qs : list Packet) :
  with_sent (with_sent st ps) qs = with_sent st (ps ++ qs).
Proof. unfold with_sent. simpl. by rewrite app_assoc. Qed.

Lemma after_acceptable (st : Server) (req : Kind * value) :
  acceptable req = true ->
  after st (post_of req) = with_sent st [broadcast_of (fst req) (snd req) st].
Proof.
  destruct req as [k req_body]. unfold acceptable, post_of, after.
  cbn [fst snd]. intros [Hreq Hlog]%andb_true_iff.
  apply negb_true_iff in Hlog.
  by rewrite (post_accepted k req_body st Hreq), Hlog.
Qed.

(** X7: a run of requests that are all accepted puts exactly their events
    on the wire, one for each request and in the order the requests came
    in, all addressed to the same receivers; nothing else changes. *)
Theorem accepted_requests_are_broadcast_in_order
    (st : Server) (reqs : list (Kind * value)) :
  forallb acceptable reqs = true ->
  run st (map post_of reqs)
  = with_sent st
      (map (fun req => broadcast_of (fst req) (snd req) st) reqs).
Proof.
  intros Hall.
  assert (H : forall ps,
            run (with_sent st ps) (map post_of reqs)
            = with_sent st
                (ps ++ map (fun req => broadcast_of (fst req) (snd req) st)
                         reqs)).
  { induction reqs as [| req reqs IH]; intros ps.
    - simpl. by rewrite app_nil_r.
    - simpl in Hall. apply andb_true_iff in Hall as [Hreq Hall].
      simpl. rewrite (after_acceptable _ req Hreq), with_sent_app.
      rewrite (IH Hall). by rewrite <- app_assoc. }
  specialize (H []). by rewrite with_sent_nil in H.
Qed.

Lemma accepted_requests_are_broadcast_in_order_witness :
  let st := run initial [Connection "s1"] in
  let created := (OrderCreated, VObj [("order", VObj [("id", VInt 7)])]) in
  let deleted := (OrderDeleted, VObj [("order_id", VInt 7)]) in
  map event (drop 1 (sent (run st (map post_of [created; deleted; created]))))
  = ["order_created"; "order_deleted"; "order_created"].
Proof.
  cbv zeta.
  rewrite (accepted_requests_are_broadcast_in_order
             (run initial [Connection "s1"])
             [(OrderCreated, VObj [("order", VObj [("id", VInt 7)])]);
              (OrderDeleted, VObj [("order_id", VInt 7)]);
              (OrderCreated, VObj [("order", VObj [("id", VInt 7)])])]
             eq_refl).
  reflexivity.
Defined.

(** X8: along the lifecycle, the [clients] number in the answer to an
    accepted request is the number of sockets its broadcast was handed
    to. *)
Theorem reported_clients_is_the_number_of_receivers
    (evs : list Event) (k : Kind) (req_body : value) :
  lifecycle initial evs = true ->
  acceptable (k, req_body) = true ->
  exists p r,
    step (run initial evs) (Post (path_of k) req_body)
    = (Replied r, with_sent (run initial evs) [p])
    /\ own_prop (body r) "clients"
       = Some (VInt (Z.of_nat (size (receivers p)))).
Proof.
  intros Hl [Hreq Hlog]%andb_true_iff. cbn [fst snd] in *.
  apply negb_true_iff in Hlog.
  pose proof (consistent_run evs initial consistent_initial Hl) as Hc.
  eexists. eexists. split.
  - by rewrite (post_accepted k req_body _ Hreq), Hlog.
  - simpl. rewrite (members_order_updates _ Hc). by rewrite (proj1 Hc).
Qed.

Lemma reported_clients_is_the_number_of_receivers_witness :
  exists p r,
    step (run initial [Connection "s1"; Connection "s2"])
         (Post "/broadcast/order-deleted" (VObj [("order_id", VStr "9")]))
    = (Replied r, with_sent (run initial [Connection "s1"; Connection "s2"]) [p])
    /\ own_prop (body r) "clients"
       = Some (VInt (Z.of_nat (size (receivers p)))).
Proof.
  apply (reported_clients_is_the_number_of_receivers
           [Connection "s1"; Connection "s2"] OrderDeleted
           (VObj [("order_id", VStr "9")])).
  - vm_compute; reflexivity.
  - reflexivity.
Defined.

(** ** More on the registry *)

(** X9: along the lifecycle, at every moment ["order_updates"] holds
    exactly the live connections, the room named after a live socket
    holds that socket, and no room holds anything else. *)
Theorem order_updates_holds_exactly_the_live_connections
    (evs : list Event) (room : string) :
  lifecycle initial evs = true ->
  members (run initial evs) room
  = (if decide (room = "order_updates") then live evs else ∅)
    ∪ (if decide (room ∈ live evs) then {[room]} else ∅).
Proof.
  intros Hl.
  destruct (consistent_run evs initial consistent_initial Hl) as [_ Hm].
  rewrite Hm. unfold ROOM, live. by rewrite sockets_run.
Qed.

Lemma order_updates_holds_exactly_the_live_connections_witness :
  let evs := [Connection "s1"; Connection "s2";
              Disconnect "s1" "transport close"] in
  members (run initial evs) "order_updates" = live evs
  /\ members (run initial evs) "s2" = {["s2"]}
  /\ members (run initial evs) "s1" = ∅.
Proof.
  assert (H := fun room =>
    order_updates_holds_exactly_the_live_connections
      [Connection "s1"; Connection "s2"; Disconnect "s1" "transport close"]
      room ltac:(vm_compute; reflexivity)).
  cbv zeta. rewrite !H. repeat split; apply leibniz_equiv;
    apply set_equiv; intros x; vm_compute; tauto.
Defined.

(** X10: along the lifecycle, [GET /] and [GET /health] both answer 200
    with the number of live connections in [connectedClients], and leave
    the state as it was. *)
Theorem status_endpoints_report_the_live_connections
    (evs : list Event) (uptime : spec_float) :
  lifecycle initial evs = true ->
  step (run initial evs) GetRoot
  = (Replied
       {| status := 200;
          body := VObj [("message", VStr "Socket.IO Server for Seefood Orders");
                        ("version", VStr "1.0.0");
                        ("connectedClients",
                          VInt (Z.of_nat (size (live evs))))] |},
     run initial evs)
  /\ step (run initial evs) (GetHealth uptime)
     = (Replied
          {| status := 200;
             body := VObj [("status", VStr "ok");
                           ("connectedClients",
                             VInt (Z.of_nat (size (live evs))));
                           ("uptime", VNum uptime)] |},
        run initial evs).
Proof.
  intros Hl.
  destruct (consistent_run evs initial consistent_initial Hl) as [Hn _].
  rewrite sockets_run in Hn. fold (live evs) in Hn.
  unfold step, endpoint, get_root, get_health, bind, read_connectedClients,
    ret, ok_json. by rewrite Hn.
Qed.

Lemma status_endpoints_report_the_live_connections_witness :
  fst (step (run initial [Connection "s1"; Connection "s2"]) GetRoot)
  = Replied
      {| status := 200;
         body := VObj [("message", VStr "Socket.IO Server for Seefood Orders");
                       ("version", VStr "1.0.0");
                       ("connectedClients", VInt 2)] |}.
Proof.
  rewrite (proj1 (status_endpoints_report_the_live_connections
                    [Connection "s1"; Connection "s2"]
                    (S754_zero false) eq_refl)).
  reflexivity.
Defined.

(** ** Order on the wire *)

Lemma acknowledged_first_snoc (wire : list Packet) (p : Packet) :
  acknowledged_first wire ->
  (forall id, id ∈ receivers p -> ack id ∈ wire ++ [p]) ->
  acknowledged_first (wire ++ [p]).
Proof.
  intros Hw Hp i q id Hi Hid.
  destruct (decide (i < length wire)%nat) as [Hlt | Hge].
  - rewrite lookup_app_l in Hi by done.
    destruct (Hw i q id Hi Hid) as (j & Hj & Hl). exists j. split; [done |].
    rewrite lookup_app_l by lia. done.
  - pose proof (lookup_lt_Some _ _ _ Hi) as Hlen.
    rewrite length_app in Hlen. simpl in Hlen.
    assert (i = length wire) as -> by lia.
    rewrite lookup_app_r, Nat.sub_diag in Hi by lia.
    injection Hi as <-.
    destruct (proj1 (list_elem_of_lookup _ _) (Hp id Hid)) as [j Hj].
    exists j. split; [| done].
    apply lookup_lt_Some in Hj. rewrite length_app in Hj. simpl in Hj. lia.
Qed.

Lemma acknowledged_first_after (st : Server) (ev : Event) :
  consistent st ->
  admissible st ev = true ->
  (forall id, id ∈ sockets st -> ack id ∈ sent st) ->
  acknowledged_first (sent st) ->
  (forall id, id ∈ sockets (after st ev) -> ack id ∈ sent (after st ev))
  /\ acknowledged_first (sent (after st ev)).
Proof.
  intros Hc Ha Hg Hw.
  destruct (after_sent st ev) as (ps & Hps & Hev).
  rewrite Hps, sockets_after. clear Hps.
  assert (Hold : forall id, id ∈ sockets st -> ack id ∈ sent st ++ ps).
  { intros id Hid. apply elem_of_app. left. by apply Hg. }
  destruct ev as [id | id data now | id reason | id error | path req_body
                 | uptime | ]; simpl in Ha, Hev |- *.
  - subst ps. split.
    + intros id' [->%elem_of_singleton | Hid]%elem_of_union; [| by apply Hold].
      apply elem_of_app. right. by apply list_elem_of_singleton.
    + apply acknowledged_first_snoc; [done |].
      intros id' Hid. simpl in Hid. apply elem_of_singleton in Hid as ->.
      apply elem_of_app. right. by apply list_elem_of_singleton.
  - apply bool_decide_eq_true in Ha. split; [done |].
    destruct Hev as [-> | [timestamp ->]]; [by rewrite app_nil_r |].
    apply acknowledged_first_snoc; [done |].
    intros id' Hid. simpl in Hid. apply elem_of_singleton in Hid as ->.
    apply elem_of_app. left. by apply Hg.
  - subst ps. rewrite app_nil_r. split; [| done].
    intros id' [Hid _]%elem_of_difference. by apply Hg.
  - subst ps. by rewrite app_nil_r.
  - split; [done |].
    destruct Hev as [-> | (k & _ & ->)]; [by rewrite app_nil_r |].
    apply acknowledged_first_snoc; [done |].
    intros id' Hid. apply elem_of_app. left. apply Hg.
    simpl in Hid. by rewrite (members_order_updates st Hc) in Hid.
  - subst ps. by rewrite app_nil_r.
  - subst ps. by rewrite app_nil_r.
Qed.

(** X11: along the lifecycle no socket is handed anything before its own
    [connection_established]: for every packet on the wire and every
    socket among its receivers, the acknowledgment carrying that socket's
    id was sent no later than the packet. *)
Theorem no_packet_before_the_acknowledgment (evs : list Event) :
  lifecycle initial evs = true ->
  acknowledged_first (sent (run initial evs)).
Proof.
  assert (H : forall st,
            consistent st ->
            (forall id, id ∈ sockets st -> ack id ∈ sent st) ->
            acknowledged_first (sent st) ->
            lifecycle st evs = true ->
            acknowledged_first (sent (run st evs))).
  { induction evs as [| ev evs IH]; intros st Hc Hg Hw Hl; [done |].
    simpl in Hl. apply andb_true_iff in Hl as [Ha Hl].
    destruct (acknowledged_first_after st ev Hc Ha Hg Hw) as [Hg' Hw'].
    simpl. apply IH; [by apply consistent_after | done | done | done]. }
  intros Hl. apply H; [apply consistent_initial | | | done].
  - intros id Hid. by apply not_elem_of_empty in Hid.
  - intros i p id Hi. simpl in Hi. by rewrite lookup_nil in Hi.
Qed.

Lemma no_packet_before_the_acknowledgment_witness :
  acknowledged_first
    (sent (run initial
             [Connection "s1";
              Post "/broadcast/order-deleted" (VObj [("order_id", VStr "9")]);
              Connection "s2"; Ping "s2" (VObj []) 1700000000000])).
Proof.
  apply no_packet_before_the_acknowledgment. vm_compute; reflexivity.
Defined.

(** ** Configuration *)

Section ConfigFacts.

Import Config.

Lemma split_cons (c : N) (rest : list N) :
  exists piece pieces,
    split rest = piece :: pieces
    /\ split (c :: rest)
       = if N.eqb c COMMA then [] :: piece :: pieces
         else (c :: piece) :: pieces.
Proof.
  assert (Hne : forall s, split s <> []).
  { intros [| d s]; simpl; [done |].
    destruct (N.eqb d COMMA); [done |]. by destruct (split s). }
  destruct (split rest) as [| piece pieces] eqn:Hs; [by apply Hne in Hs |].
  exists piece, pieces. split; [done |]. simpl. by rewrite Hs.
Qed.

Lemma split_length (s : list N) : length (split s) = S (commas s).
Proof.
  induction s as [| c rest IH]; [done |].
  destruct (split_cons c rest) as (piece & pieces & Hs & ->).
  rewrite Hs in IH. unfold commas in *. cbn [List.filter].
  rewrite (N.eqb_sym COMMA c).
  destruct (N.eqb c COMMA); cbn [length] in *; lia.
Qed.

Lemma split_no_comma (s piece : list N) :
  piece ∈ split s -> COMMA ∉ piece.
Proof.
  revert piece. induction s as [| c rest IH]; intros piece.
  - simpl. intros ->%list_elem_of_singleton. apply not_elem_of_nil.
  - destruct (split_cons c rest) as (q & qs & Hs & ->). rewrite Hs in IH.
    destruct (N.eqb_spec c COMMA) as [-> | Hc].
    + intros [-> | Hin]%elem_of_cons; [apply not_elem_of_nil | by apply IH].
    + intros [-> | Hin]%elem_of_cons.
      * intros [Heq | Hin]%elem_of_cons; [done |].
        by apply (IH q); [apply list_elem_of_here |].
      * apply IH. by apply list_elem_of_further.
Qed.

Lemma join_split (s : list N) : join (split s) = s.
Proof.
  induction s as [| c rest IH]; [done |].
  destruct (split_cons c rest) as (q & qs & Hs & ->). rewrite Hs in IH.
  destruct (N.eqb_spec c COMMA) as [-> | Hc].
  - change (join ([] :: q :: qs)) with (COMMA :: join (q :: qs)).
    by rewrite IH.
  - rewrite <- IH. by destruct qs.
Qed.

Lemma split_Forall (P : N -> Prop) (s : list N) :
  Forall P s -> Forall (Forall P) (split s).
Proof.
  induction s as [| c rest IH]; intros Hs.
  - by repeat constructor.
  - apply Forall_cons in Hs as [Hc Hrest]. specialize (IH Hrest).
    destruct (split_cons c rest) as (q & qs & Hq & ->). rewrite Hq in IH.
    apply Forall_cons in IH as [Hq1 Hqs].
    destruct (N.eqb c COMMA); repeat constructor; done.
Qed.

Lemma trim_start_subset (s : list N) (c : N) : c ∈ trim_start s -> c ∈ s.
Proof.
  induction s as [| d rest IH]; [done |]. simpl.
  destruct (is_white_space d); [| done].
  intros Hin. apply list_elem_of_further. by apply IH.
Qed.

Lemma trim_end_subset (s : list N) (c : N) : c ∈ trim_end s -> c ∈ s.
Proof.
  revert c. induction s as [| d rest IH]; intros c; [done |]. simpl.
  destruct (trim_end rest) as [| k kept].
  - destruct (is_white_space d); [by intros ?%not_elem_of_nil |].
    intros ->%list_elem_of_singleton. apply list_elem_of_here.
  - intros [-> | Hin]%elem_of_cons; [apply list_elem_of_here |].
    apply list_elem_of_further. by apply IH.
Qed.

Lemma trim_start_head (s : list N) (c : N) :
  head (trim_start s) = Some c -> is_white_space c = false.
Proof.
  induction s as [| d rest IH]; [done |]. simpl.
  destruct (is_white_space d) eqn:Hd; [done |]. simpl. by intros [= <-].
Qed.

Lemma trim_end_head (s : list N) (c : N) :
  head (trim_end s) = Some c -> head s = Some c.
Proof.
  destruct s as [| d rest]; [done |]. simpl.
  destruct (trim_end rest); [| done]. by destruct (is_white_space d).
Qed.

Lemma trim_end_last (s : list N) (c : N) :
  last (trim_end s) = Some c -> is_white_space c = false.
Proof.
  induction s as [| d rest IH]; [done |]. simpl.
  destruct (trim_end rest) as [| k kept].
  - destruct (is_white_space d) eqn:Hd; [done |]. simpl. by intros [= <-].
  - done.
Qed.

Lemma trim_clean (s : list N) :
  Forall (fun c => is_white_space c = false) s -> trim s = s.
Proof.
  intros Hs. unfold trim.
  assert (trim_start s = s) as ->.
  { destruct Hs as [| c rest Hc _]; [done |]. simpl. by rewrite Hc. }
  induction Hs as [| c rest Hc Hrest IH]; [done |]. simpl.
  rewrite IH, Hc. by destruct rest.
Qed.

(** X12: when [CORS_ORIGINS] is set to a non-empty string, the server
    allows one origin for each comma-separated piece, empty pieces
    included: the list has one more entry than the string has commas, so
    it is never empty and a trailing comma adds an empty origin. *)
Theorem cors_origins_one_per_piece (s : list N) :
  s <> [] ->
  length (CORS_ORIGINS (Some s)) = S (commas s).
Proof.
  intros Hs. destruct s as [| c rest]; [done |].
  unfold CORS_ORIGINS. rewrite List.length_map. apply split_length.
Qed.

Lemma cors_origins_one_per_piece_witness :
  length (CORS_ORIGINS (Some (units "http://a.test , http://b.test,")))
  = 3%nat.
Proof.
  rewrite cors_origins_one_per_piece; [reflexivity | discriminate].
Defined.

(** X13: whatever the environment holds, no allowed origin contains a
    comma, and none begins or ends with white space. *)
Theorem cors_origins_are_trimmed_and_comma_free
    (env : option (list N)) (origin : list N) :
  origin ∈ CORS_ORIGINS env ->
  (COMMA ∉ origin)
  /\ (forall c, head origin = Some c -> is_white_space c = false)
  /\ (forall c, last origin = Some c -> is_white_space c = false).
Proof.
  assert (Hdefault :
    origin ∈ [units "http://localhost:3000"; units "http://127.0.0.1:3000"] ->
    (COMMA ∉ origin)
    /\ (forall c, head origin = Some c -> is_white_space c = false)
    /\ (forall c, last origin = Some c -> is_white_space c = false)).
  { intros [-> | [-> | []%not_elem_of_nil]%elem_of_cons]%elem_of_cons;
      (split; [| split]).
    all: try (intros c [= <-]; reflexivity).
    all: intros Hin; apply list_elem_of_In in Hin; vm_compute in Hin;
      repeat destruct Hin as [Hin | Hin]; done. }
  destruct env as [[| c0 rest] |]; [done | | done].
  unfold CORS_ORIGINS. intros Hin. apply list_elem_of_fmap in Hin.
  destruct Hin as (piece & -> & Hpiece). split; [| split].
  - intros Hc. apply (split_no_comma _ _ Hpiece).
    by apply trim_start_subset, trim_end_subset.
  - intros c Hc. apply (trim_start_head piece). by apply trim_end_head.
  - intros c. apply trim_end_last.
Qed.

Lemma cors_origins_are_trimmed_and_comma_free_witness :
  (COMMA ∉ units "http://b.test")
  /\ (forall c, head (units "http://b.test") = Some c ->
                is_white_space c = false)
  /\ (forall c, last (units "http://b.test") = Some c ->
                is_white_space c = false).
Proof.
  apply (cors_origins_are_trimmed_and_comma_free
           (Some (units " http://a.test,  http://b.test  "))).
  apply list_elem_of_In. vm_compute. right. by left.
Defined.

(** X14: a non-empty [CORS_ORIGINS] without any white space is taken
    apart and nothing is lost: the allowed origins, joined with commas
    again, are the string that was set. *)
Theorem cors_origins_join_back (s : list N) :
  s <> [] ->
  Forall (fun c => is_white_space c = false) s ->
  join (CORS_ORIGINS (Some s)) = s.
Proof.
  intros Hne Hs. destruct s as [| c rest]; [done |]. unfold CORS_ORIGINS.
  assert (Hmap : map trim (split (c :: rest)) = split (c :: rest)).
  { pose proof (split_Forall _ _ Hs) as Hpieces.
    induction Hpieces as [| piece pieces Hp _ IH]; [done |].
    simpl. by rewrite IH, (trim_clean piece Hp). }
  rewrite Hmap. apply join_split.
Qed.

Lemma cors_origins_join_back_witness :
  join (CORS_ORIGINS (Some (units "http://a.test,http://b.test")))
  = units "http://a.test,http://b.test".
Proof.
  apply cors_origins_join_back; [discriminate |].
  vm_compute. repeat constructor.
Defined.

End ConfigFacts.

(** ** Failure between validation and broadcast *)

(** X15: a request that passes the validation but whose log line cannot
    be rendered (a logged value is, or contains, an object with a
    [toString] field of its own) makes the handler throw before it
    emits: no broadcast, no answer from the handler, state unchanged. *)
Theorem log_line_failure_blocks_the_broadcast
    (k : Kind) (req_body : value) (st : Server) :
  forallb (present_truthy req_body) (required k) = true ->
  existsb ToString_throws (log_line k req_body) = true ->
  step st (Post (path_of k) req_body)
  = (Threw (TypeError "Cannot convert object to primitive value"), st).
Proof.
  intros Hreq Hlog. by rewrite (post_accepted k req_body st Hreq), Hlog.
Qed.

Lemma log_line_failure_blocks_the_broadcast_witness :
  step (run initial [Connection "s1"])
       (Post "/broadcast/comment-created"
          (VObj [("order_id", VStr "7");
                 ("comment", VObj [("id", VArr [VObj [("toString", VNull)]])])]))
  = (Threw (TypeError "Cannot convert object to primitive value"),
     run initial [Connection "s1"]).
Proof.
  exact (log_line_failure_blocks_the_broadcast CommentCreated
           (VObj [("order_id", VStr "7");
                  ("comment",
                    VObj [("id", VArr [VObj [("toString", VNull)]])])])
           (run initial [Connection "s1"]) eq_refl eq_refl).
Defined.

(** ** Connect and disconnect undo each other *)

(** X16: along the lifecycle, a connect followed by the disconnect of the
    same socket puts the counter, the connected sockets and the
    membership of every room back where they were; the only trace left is
    the one [connection_established] on the wire. *)
Theorem connect_then_disconnect_restores_the_registry
    (evs : list Event) (id reason : string) :
  lifecycle initial evs = true ->
  id ∉ live evs ->
  let st := run initial evs in
  let st' := run st [Connection id; Disconnect id reason] in
  connectedClients st' = connectedClients st
  /\ sockets st' = sockets st
  /\ (forall room, members st' room = members st room)
  /\ sent st' = sent st ++ [ack id].
Proof.
  intros Hl Hid st st'.
  pose proof (consistent_run evs initial consistent_initial Hl) as Hc.
  fold st in Hc.
  assert (Hid' : id ∉ sockets st) by (unfold st; by rewrite sockets_run).
  unfold st', run, fold_left. split; [| split; [| split]].
  - rewrite !count_after. simpl. lia.
  - rewrite !sockets_after. simpl. set_solver.
  - intros room. rewrite members_after_disconnect, members_after_connection.
    pose proof (not_connected_no_room st id room Hc Hid') as Hroom.
    repeat case_decide; set_solver.
  - reflexivity.
Qed.

Lemma connect_then_disconnect_restores_the_registry_witness :
  let st := run initial [Connection "s1"] in
  let st' := run st [Connection "s2"; Disconnect "s2" "transport close"] in
  connectedClients st' = connectedClients st
  /\ sockets st' = sockets st
  /\ (forall room, members st' room = members st room)
  /\ sent st' = sent st ++ [ack "s2"].
Proof.
  apply (connect_then_disconnect_restores_the_registry
           [Connection "s1"] "s2" "transport close").
  - vm_compute; reflexivity.
  - vm_compute. discriminate.
Defined.
